(** * Two-circle trilateration on a local transverse-Mercator plane

    Shallow embedding of [calculate_lat_lon_point.py] and the properties of
    its angle conversion, local projection and circle intersection.

    Numbers.  The program computes in binary64.  Two embeddings are used.

    - Exact arithmetic: a Python/numpy float is an exact real number,
      extended with the two infinities and NaN that numpy returns (with a
      warning, never an exception) from a division by zero or a square root
      of a negative number.  Rounding is not modelled; the theorems on this
      embedding are statements about the program's formulas.

    - Binary64 (module [B64]): the circle intersection on the kernel's
      IEEE 754 binary64 numbers, with the [OverflowError] of Python's
      [float ** 2].  It is used to evaluate the function at concrete
      inputs, where rounding decides the result. *)

From Stdlib Require Import Reals Lra Lia ZArith String Bool.
From Stdlib Require Floats.PrimFloat.

Local Open Scope R_scope.

(* ================================================================= *)
(** ** numpy floating-point values *)

(** [Fin r] is the finite value [r], [Inf false] is [+inf], [Inf true] is
    [-inf]. *)
Inductive npfloat : Type :=
| Fin (r : R)
| Inf (neg : bool)
| NaN.

Inductive sign : Type := Neg | Zero | Pos.

Coercion Fin : R >-> npfloat.

Module Np.

Definition sgn (r : R) : sign :=
if Rlt_dec r 0 then Neg else if Rlt_dec 0 r then Pos else Zero.

Definition neg (x : npfloat) : npfloat :=
match x with
| Fin r => Fin (- r)
| Inf s => Inf (negb s)
| NaN => NaN
end.

Definition add (x y : npfloat) : npfloat :=
match x, y with
| Fin a, Fin b => Fin (a + b)
| Fin _, Inf s => Inf s
| Inf s, Fin _ => Inf s
| Inf s, Inf t => if Bool.eqb s t then Inf s else NaN
| _, _ => NaN
end.

Definition sub (x y : npfloat) : npfloat := add x (neg y).

(** Product of an infinity of sign [s] with a finite [r]. *)
Definition scale_inf (s : bool) (r : R) : npfloat :=
match sgn r with
| Pos => Inf s
| Neg => Inf (negb s)
| Zero => NaN
end.

Definition mul (x y : npfloat) : npfloat :=
match x, y with
| Fin a, Fin b => Fin (a * b)
| Fin a, Inf s => scale_inf s a
| Inf s, Fin b => scale_inf s b
| Inf s, Inf t => Inf (xorb s t)
| _, _ => NaN
end.

(** numpy true division: a zero divisor gives [nan] for [0/0] and a signed
  infinity otherwise.  (The only zero divisor the program can form is the
  [+0.0] of [np.hypot].) *)
Definition div (x y : npfloat) : npfloat :=
match x, y with
| Fin a, Fin b =>
    match sgn b with
    | Zero => match sgn a with
              | Zero => NaN
              | Pos => Inf false
              | Neg => Inf true
              end
    | _ => Fin (a / b)
    end
| Fin _, Inf _ => Fin 0
| Inf s, Fin b => match sgn b with Neg => Inf (negb s) | _ => Inf s end
| _, _ => NaN
end.

(** [x ** 2] *)
Definition sq (x : npfloat) : npfloat := mul x x.

(** [np.sqrt]: [nan] on a negative argument, no clamping. *)
Definition sqrt (x : npfloat) : npfloat :=
match x with
| Fin a => if Rlt_dec a 0 then NaN else Fin (R_sqrt.sqrt a)
| Inf false => Inf false
| Inf true => NaN
| NaN => NaN
end.

(** [np.hypot] on finite arguments. *)
Definition hypot (x y : R) : R := R_sqrt.sqrt (x * x + y * y).

End Np.

Declare Scope np_scope.
Delimit Scope np_scope with np.
Bind Scope np_scope with npfloat.
Notation "x + y" := (Np.add x y) : np_scope.
Notation "x - y" := (Np.sub x y) : np_scope.
Notation "x * y" := (Np.mul x y) : np_scope.
Notation "x / y" := (Np.div x y) : np_scope.

(* ================================================================= *)
(** ** Exceptions *)

Inductive exn : Type :=
| ValueError (msg : string).

Inductive outcome (A : Type) : Type :=
| Returned (a : A)
| Raised (e : exn).

Arguments Returned {A} a.
Arguments Raised {A} e.

(* ================================================================= *)
(** ** 1. Degrees, minutes, seconds to decimal degrees *)

Definition dms_to_decimal (d m : Z) (s : R) : R :=
  IZR d + IZR m / 60 + s / 3600.

(* ================================================================= *)
(** ** 4. Intersection of two circles in the plane *)

Definition point : Type := (npfloat * npfloat)%type.

Definition no_solution : string := "无解：两圆不相交".

(** The guard [d > r1 + r2 or d < abs(r1 - r2)]. *)
Definition disjoint_or_nested (d r1 r2 : R) : bool :=
  (if Rlt_dec (r1 + r2) d then true else false)
  || (if Rlt_dec d (Rabs (r1 - r2)) then true else false).

(** The local variables [d], [a] and [h] of [circle_intersection]. *)
Definition ci_d (x1 y1 x2 y2 : R) : R := Np.hypot (x2 - x1) (y2 - y1).

Definition ci_a (r1 r2 d : R) : npfloat :=
  (Fin (r1 ^ 2 - r2 ^ 2 + d ^ 2) / Fin (2 * d))%np.

Definition ci_h (r1 : R) (a : npfloat) : npfloat :=
  Np.sqrt (Fin (r1 ^ 2) - Np.sq a)%np.

Definition circle_intersection (x1 y1 r1 x2 y2 r2 : R)
  : outcome (point * point) :=
  let d := ci_d x1 y1 x2 y2 in
  if disjoint_or_nested d r1 r2 then Raised (ValueError no_solution)
  else
    let a := ci_a r1 r2 d in
    let h := ci_h r1 a in
    let xm := (Fin x1 + a * Fin (x2 - x1) / Fin d)%np in
    let ym := (Fin y1 + a * Fin (y2 - y1) / Fin d)%np in
    let dx := (h * Fin (y2 - y1) / Fin d)%np in
    let dy := (h * Fin (x1 - x2) / Fin d)%np in
    Returned ((xm + dx, ym + dy), (xm - dx, ym - dy))%np.

(** The module-level [try: ... except ValueError as e: print(e); exit()]:
    either the script stops after printing the exception's message, or it
    goes on with the two local solutions bound. *)
Inductive script_state : Type :=
| Exited (printed : string)
| Solved (C1_local C2_local : point).

Definition try_intersection (xA yA dA xB yB dB : R) : script_state :=
  match circle_intersection xA yA dA xB yB dB with
  | Returned (C1_local, C2_local) => Solved C1_local C2_local
  | Raised (ValueError e) => Exited e
  end.

(* ================================================================= *)
(** ** 6. Decimal degrees to degrees, minutes, seconds *)

(** Python's [int] on a float: truncation toward zero. *)
Definition int (x : R) : Z :=
  if Rle_dec 0 x then Zfloor x else Zceil x.

Definition decimal_to_dms (deg : R) : Z * Z * R :=
  let d := int deg in
  let m := int ((deg - IZR d) * 60) in
  let s := ((deg - IZR d) * 60 - IZR m) * 60 in
  (d, m, s).

(* ================================================================= *)
(** ** 3. Longitude/latitude to and from local plane coordinates *)

Inductive direction : Type := FORWARD | INVERSE.

Section LocalProjection.

(** The origin of the local frame and pyproj's transformer built on it.
    [local_tm dir u v] stands for [local_tm.transform(u, v, direction=dir)]
    on valid input, where pyproj returns a pair of finite numbers. *)
Variables A_lon A_lat : R.
Variable local_tm : direction -> R -> R -> R * R.

Definition latlon_to_local (lon lat : R) : R * R :=
  let '(e, n) := local_tm FORWARD lon lat in
  let '(e0, n0) := local_tm FORWARD A_lon A_lat in
  (e - e0, n - n0).

Definition local_to_latlon (e n : R) : R * R :=
  let '(e0, n0) := local_tm FORWARD A_lon A_lat in
  let '(lon, lat) := local_tm INVERSE (e + e0) (n + n0) in
  (lat, lon).

End LocalProjection.

(* ================================================================= *)
(** ** The circle intersection in binary64 *)

Module B64.

Import PrimFloat.
Local Open Scope float_scope.

Inductive exn : Type :=
| ValueError (msg : string)
| OverflowError.

Inductive outcome (A : Type) : Type :=
| Returned (a : A)
| Raised (e : exn).

Arguments Returned {A} a.
Arguments Raised {A} e.

Definition bind {A B : Type} (c : outcome A) (k : A -> outcome B)
  : outcome B :=
  match c with
  | Returned a => k a
  | Raised e => Raised e
  end.

Notation "x <- c ;; k" := (bind c (fun x => k))
  (at level 61, c at next level, right associativity).

(** [x ** 2] on a Python float, as the script passes the radii: the
    correctly rounded square, and an [OverflowError] when a finite [x] has
    an infinite square. *)
Definition py_sq (x : float) : outcome float :=
  let y := x * x in
  if is_finite x && is_infinity y then Raised OverflowError else Returned y.

(** [x ** 2] on a numpy float64 ([d] and [a]): the correctly rounded
    square; an overflow gives [inf] with a warning. *)
Definition np_sq (x : float) : float := x * x.

Definition point : Type := (float * float)%type.

(** The guard [d > r1 + r2 or d < abs(r1 - r2)]. *)
Definition disjoint_or_nested (d r1 r2 : float) : bool :=
  (r1 + r2 <? d) || (d <? abs (r1 - r2)).

(** The local variables [a] and [h] of [circle_intersection]. *)
Definition ci_a (r1 r2 d : float) : outcome float :=
  r1_2 <- py_sq r1 ;;
  r2_2 <- py_sq r2 ;;
  Returned ((r1_2 - r2_2 + np_sq d) / (2 * d)).

Definition ci_h (r1 a : float) : outcome float :=
  r1_2 <- py_sq r1 ;;
  Returned (sqrt (r1_2 - np_sq a)).

Section Hypot.

(** [np.hypot] is a function of the C library and is taken as a
    parameter. *)
Variable hypot : float -> float -> float.

Definition circle_intersection (x1 y1 r1 x2 y2 r2 : float)
  : outcome (point * point) :=
  let d := hypot (x2 - x1) (y2 - y1) in
  if disjoint_or_nested d r1 r2 then Raised (ValueError no_solution)
  else
    a <- ci_a r1 r2 d ;;
    h <- ci_h r1 a ;;
    let xm := x1 + a * (x2 - x1) / d in
    let ym := y1 + a * (y2 - y1) / d in
    let dx := h * (y2 - y1) / d in
    let dy := h * (x1 - x2) / d in
    Returned ((xm + dx, ym + dy), (xm - dx, ym - dy)).

(** The module-level [try/except ValueError]: any other exception is not
    caught and ends the script with a traceback. *)
Inductive script_state : Type :=
| Exited (printed : string)
| Solved (C1_local C2_local : point)
| Uncaught (e : exn).

Definition try_intersection (xA yA dA xB yB dB : float) : script_state :=
  match circle_intersection xA yA dA xB yB dB with
  | Returned (C1_local, C2_local) => Solved C1_local C2_local
  | Raised (ValueError e) => Exited e
  | Raised e => Uncaught e
  end.

End Hypot.

(** What is assumed of [np.hypot]: with a zero second argument it returns
    the magnitude of the first (C99, F.10.4.3). *)
Definition hypot_on_axis (hypot : float -> float -> float) : Prop :=
  forall x, hypot x 0 = abs x.

(** A function with this property: exact on the axis, the plain formula
    elsewhere. *)
Definition axis_hypot (x y : float) : float :=
  if y =? 0 then abs x else sqrt (x * x + y * y).

End B64.

(* ================================================================= *)
(** ** The two solutions in the words of the specification *)

Module Spec.

(** Distance of the centres, signed distance [a] from the first centre to
    the radical line, half chord [h]. *)
Definition d (x1 y1 x2 y2 : R) : R := sqrt ((x2 - x1) ^ 2 + (y2 - y1) ^ 2).
Definition a (r1 r2 d : R) : R := (r1 ^ 2 - r2 ^ 2 + d ^ 2) / (2 * d).
Definition h (r1 a : R) : R := sqrt (r1 ^ 2 - a ^ 2).

Section Solutions.
Variables x1 y1 r1 x2 y2 r2 : R.

Let d0 := d x1 y1 x2 y2.
Let a0 := a r1 r2 d0.
Let h0 := h r1 a0.

(** Unit axis vector [(center2 - center1) / d]. *)
Definition ex : R := (x2 - x1) / d0.
Definition ey : R := (y2 - y1) / d0.

(** [M = center1 + a (center2 - center1) / d]. *)
Definition Mx : R := x1 + a0 * ex.
Definition My : R := y1 + a0 * ey.

(** [perpendicular (ex, ey) = (- ey, ex)]. *)
Definition px : R := - ey.
Definition py : R := ex.

Definition plus_branch : R * R := (Mx + h0 * px, My + h0 * py).
Definition minus_branch : R * R := (Mx - h0 * px, My - h0 * py).
End Solutions.

End Spec.

Definition finite_point (p : R * R) : point := (Fin (fst p), Fin (snd p)).

(** Euclidean distance of a returned point to a centre, NaN-propagating. *)
Definition dist_to (p : point) (x y : R) : npfloat :=
  Np.sqrt (Np.sq (fst p - Fin x) + Np.sq (snd p - Fin y))%np.

(** A returned point moved by the finite vector [(tx, ty)]. *)
Definition translate (tx ty : R) (p : point) : point :=
  (fst p + Fin tx, snd p + Fin ty)%np.

(** The transformer [tm] with a false easting [fe] and a false northing [fn]
    added to its native plane coordinates (pyproj's [x_0] and [y_0]). *)
Definition with_false_origin (fe fn : R)
  (tm : direction -> R -> R -> R * R) : direction -> R -> R -> R * R :=
  fun dir u v =>
    match dir with
    | FORWARD => let '(e, n) := tm FORWARD u v in (e + fe, n + fn)
    | INVERSE => tm INVERSE (u - fe) (v - fn)
    end.

(* ================================================================= *)
(** * Properties *)

Ltac unfold_branches :=
  unfold Spec.minus_branch, Spec.plus_branch, Spec.Mx, Spec.My,
    Spec.px, Spec.py, Spec.ex, Spec.ey.

(** ** Arithmetic of numpy values on finite operands *)

Lemma sgn_pos r : 0 < r -> Np.sgn r = Pos.
Proof.
  intros H. unfold Np.sgn.
  destruct (Rlt_dec r 0); [lra|]. destruct (Rlt_dec 0 r); [reflexivity|lra].
Qed.

Lemma sgn_neg r : r < 0 -> Np.sgn r = Neg.
Proof. intros H. unfold Np.sgn. destruct (Rlt_dec r 0); [reflexivity|lra]. Qed.

Lemma sgn_zero : Np.sgn 0 = Zero.
Proof.
  unfold Np.sgn.
  destruct (Rlt_dec 0 0); [lra|]. reflexivity.
Qed.

Lemma div_fin a b : b <> 0 -> (Fin a / Fin b)%np = Fin (a / b).
Proof.
  intros Hb. unfold Np.div.
  destruct (Rtotal_order b 0) as [H | [H | H]]; [ | contradiction | ].
  - now rewrite (sgn_neg b H).
  - now rewrite (sgn_pos b H).
Qed.

Lemma div_zero_zero : (Fin 0 / Fin 0)%np = NaN.
Proof. unfold Np.div. now rewrite sgn_zero. Qed.

Lemma sqrt_fin a : 0 <= a -> Np.sqrt (Fin a) = Fin (sqrt a).
Proof. intros H. unfold Np.sqrt. destruct (Rlt_dec a 0); [lra | reflexivity]. Qed.

(** ** The guard *)

Lemma guard_false d r1 r2 :
  disjoint_or_nested d r1 r2 = false <-> Rabs (r1 - r2) <= d <= r1 + r2.
Proof.
  unfold disjoint_or_nested.
  destruct (Rlt_dec (r1 + r2) d), (Rlt_dec d (Rabs (r1 - r2))); simpl;
    split; intros H; try reflexivity; try discriminate; try lra.
Qed.

(** Radii that pass the guard are non-negative. *)
Lemma guard_radii d r1 r2 :
  Rabs (r1 - r2) <= d <= r1 + r2 -> 0 <= r1 /\ 0 <= r2 /\ 0 <= d.
Proof.
  intros [H1 H2]. unfold Rabs in H1.
  destruct (Rcase_abs (r1 - r2)); lra.
Qed.

(** ** The distance of the centres *)

Lemma ci_d_spec x1 y1 x2 y2 : ci_d x1 y1 x2 y2 = Spec.d x1 y1 x2 y2.
Proof. unfold ci_d, Np.hypot, Spec.d. f_equal. ring. Qed.

Lemma ci_d_nonneg x1 y1 x2 y2 : 0 <= ci_d x1 y1 x2 y2.
Proof. apply sqrt_pos. Qed.

Lemma ci_d_sqr x1 y1 x2 y2 :
  ci_d x1 y1 x2 y2 ^ 2 = (x2 - x1) ^ 2 + (y2 - y1) ^ 2.
Proof.
  unfold ci_d, Np.hypot. rewrite pow2_sqrt; [ring | ].
  apply Rplus_le_le_0_compat; apply Rle_0_sqr.
Qed.

Lemma ci_d_zero x1 y1 x2 y2 :
  ci_d x1 y1 x2 y2 = 0 -> x2 = x1 /\ y2 = y1.
Proof.
  intros H. pose proof (ci_d_sqr x1 y1 x2 y2) as E. rewrite H in E.
  destruct (Rplus_sqr_eq_0 (x2 - x1) (y2 - y1)) as [Hx Hy].
  - unfold Rsqr. lra.
  - split; lra.
Qed.

(** ** The half chord is real when the circles meet *)

Lemma radicand_nonneg r1 r2 d :
  0 < d -> Rabs (r1 - r2) <= d <= r1 + r2 ->
  0 <= r1 ^ 2 - Spec.a r1 r2 d ^ 2.
Proof.
  intros Hd Hg.
  assert (Hr : r1 - r2 <= d /\ r2 - r1 <= d).
  { destruct Hg as [H1 _]. unfold Rabs in H1.
    destruct (Rcase_abs (r1 - r2)); lra. }
  destruct (guard_radii d r1 r2 Hg) as (Hr1 & Hr2 & _).
  unfold Spec.a.
  replace (r1 ^ 2 - ((r1 ^ 2 - r2 ^ 2 + d ^ 2) / (2 * d)) ^ 2)
    with (((r2 - r1 + d) * (r1 + r2 - d)) * ((r1 + d - r2) * (r1 + d + r2))
          / (4 * d ^ 2)) by (field; lra).
  apply Rmult_le_pos.
  - apply Rmult_le_pos; apply Rmult_le_pos; lra.
  - apply Rlt_le, Rinv_0_lt_compat. nra.
Qed.

Lemma ci_a_fin r1 r2 d : d <> 0 -> ci_a r1 r2 d = Fin (Spec.a r1 r2 d).
Proof. intros Hd. unfold ci_a, Spec.a. apply div_fin. lra. Qed.

Lemma ci_h_fin r1 a :
  0 <= r1 ^ 2 - a ^ 2 -> ci_h r1 (Fin a) = Fin (Spec.h r1 a).
Proof.
  intros H. unfold ci_h, Spec.h, Np.sq, Np.sub. simpl.
  replace (r1 * (r1 * 1) + - (a * a)) with (r1 * (r1 * 1) - a * (a * 1)) by ring.
  now apply sqrt_fin.
Qed.

(** ** What the function returns on circles that meet, centres apart *)

Lemma circle_intersection_meets x1 y1 r1 x2 y2 r2 :
  0 < Spec.d x1 y1 x2 y2 ->
  Rabs (r1 - r2) <= Spec.d x1 y1 x2 y2 <= r1 + r2 ->
  circle_intersection x1 y1 r1 x2 y2 r2 =
    Returned (finite_point (Spec.minus_branch x1 y1 r1 x2 y2 r2),
              finite_point (Spec.plus_branch x1 y1 r1 x2 y2 r2)).
Proof.
  intros Hd Hg.
  pose proof (radicand_nonneg _ _ _ Hd Hg) as Hrad.
  unfold circle_intersection. rewrite ci_d_spec.
  apply guard_false in Hg. rewrite Hg.
  set (d := Spec.d x1 y1 x2 y2) in *.
  assert (Hd0 : d <> 0) by lra.
  cbv zeta. rewrite (ci_a_fin _ _ _ Hd0), (ci_h_fin _ _ Hrad).
  unfold Np.mul. rewrite !(div_fin _ d Hd0).
  unfold Np.sub, Np.add, Np.neg, finite_point.
  unfold_branches. fold d. cbn [fst snd].
  apply f_equal.
  apply f_equal2; apply f_equal2; apply f_equal; field; exact Hd0.
Qed.

(** ** What the function returns on coincident centres *)

Lemma ci_d_same x y : ci_d x y x y = 0.
Proof.
  unfold ci_d, Np.hypot.
  replace ((x - x) * (x - x) + (y - y) * (y - y)) with 0 by ring.
  apply sqrt_0.
Qed.

Lemma guard_same r : 0 <= r -> disjoint_or_nested 0 r r = false.
Proof.
  intros Hr. apply guard_false.
  replace (r - r) with 0 by ring. rewrite Rabs_R0. lra.
Qed.

Lemma ci_a_same r : ci_a r r 0 = NaN.
Proof.
  unfold ci_a.
  replace (r ^ 2 - r ^ 2 + 0 ^ 2) with 0 by ring.
  replace (2 * 0) with 0 by ring.
  apply div_zero_zero.
Qed.

Lemma circle_intersection_same x y r :
  0 <= r ->
  circle_intersection x y r x y r = Returned ((NaN, NaN), (NaN, NaN)).
Proof.
  intros Hr. unfold circle_intersection.
  rewrite ci_d_same, (guard_same r Hr), ci_a_same. reflexivity.
Qed.

(** ** A worked instance: centres (0,0) and (6,0), both radii 5 *)

Lemma d_example : Spec.d 0 0 6 0 = 6.
Proof.
  unfold Spec.d.
  replace ((6 - 0) ^ 2 + (0 - 0) ^ 2) with (6 * 6) by ring.
  apply sqrt_square. lra.
Qed.

Lemma a_example : Spec.a 5 5 6 = 3.
Proof. unfold Spec.a. field. Qed.

Lemma h_example : Spec.h 5 3 = 4.
Proof.
  unfold Spec.h. replace (5 ^ 2 - 3 ^ 2) with (4 * 4) by ring.
  apply sqrt_square. lra.
Qed.

Lemma guard_example :
  0 < Spec.d 0 0 6 0 /\ Rabs (5 - 5) <= Spec.d 0 0 6 0 <= 5 + 5.
Proof.
  rewrite d_example. replace (5 - 5) with 0 by ring. rewrite Rabs_R0. lra.
Qed.

Lemma plus_branch_example : Spec.plus_branch 0 0 5 6 0 5 = (3, 4).
Proof.
  unfold_branches.
  rewrite d_example, a_example, h_example. f_equal; field.
Qed.

Lemma minus_branch_example : Spec.minus_branch 0 0 5 6 0 5 = (3, -4).
Proof.
  unfold_branches.
  rewrite d_example, a_example, h_example. f_equal; field.
Qed.

Lemma circle_intersection_example :
  circle_intersection 0 0 5 6 0 5 =
    Returned ((Fin 3, Fin (-4)), (Fin 3, Fin 4)).
Proof.
  destruct guard_example as [Hd Hg].
  rewrite (circle_intersection_meets _ _ _ _ _ _ Hd Hg).
  now rewrite plus_branch_example, minus_branch_example.
Qed.

(* ================================================================= *)
(** ** Order of the two solutions *)

(** C1, as stated, fails: for the circles of radius 5 centred at (0,0) and
    (6,0), which meet with centres apart, [M + h p] with [p = (- ey, ex)] is
    (3,4), but the first point [circle_intersection] returns is (3,-4); the
    result is not (plus branch, minus branch). *)
Lemma circle_intersection_plus_branch_not_first :
  (0 < Spec.d 0 0 6 0 /\ Rabs (5 - 5) <= Spec.d 0 0 6 0 <= 5 + 5) /\
  Spec.plus_branch 0 0 5 6 0 5 = (3, 4) /\
  circle_intersection 0 0 5 6 0 5
    = Returned ((Fin 3, Fin (-4)), (Fin 3, Fin 4)) /\
  circle_intersection 0 0 5 6 0 5
    <> Returned (finite_point (Spec.plus_branch 0 0 5 6 0 5),
                 finite_point (Spec.minus_branch 0 0 5 6 0 5)).
Proof.
  split; [exact guard_example | ].
  split; [exact plus_branch_example | ].
  split; [exact circle_intersection_example | ].
  rewrite circle_intersection_example, plus_branch_example,
    minus_branch_example.
  unfold finite_point; cbn [fst snd]. intros H.
  injection H as H _. lra.
Qed.

(** C1, amended: when the centres are a distance [d > 0] apart with
    [|r1 - r2| <= d <= r1 + r2], [circle_intersection] returns exactly two
    points in a fixed order, the first [M + h (ey, - ex)] and the second
    [M - h (ey, - ex)], where [M = center1 + a (ex, ey)],
    [a = (r1^2 - r2^2 + d^2) / (2 d)], [h = sqrt (r1^2 - a^2)] and
    [(ex, ey) = (center2 - center1) / d].  With [p = (- ey, ex)] the first
    point is [M - h p] and the second is [M + h p]. *)
Theorem circle_intersection_order x1 y1 r1 x2 y2 r2 :
  let d := Spec.d x1 y1 x2 y2 in
  let a := Spec.a r1 r2 d in
  let h := Spec.h r1 a in
  let ex := (x2 - x1) / d in
  let ey := (y2 - y1) / d in
  let Mx := x1 + a * ex in
  let My := y1 + a * ey in
  Rabs (r1 - r2) <= d <= r1 + r2 ->
  0 < d ->
  circle_intersection x1 y1 r1 x2 y2 r2 =
    Returned ((Fin (Mx + h * ey), Fin (My + h * - ex)),
              (Fin (Mx - h * ey), Fin (My - h * - ex)))
  /\ (Mx + h * ey, My + h * - ex) = Spec.minus_branch x1 y1 r1 x2 y2 r2
  /\ (Mx - h * ey, My - h * - ex) = Spec.plus_branch x1 y1 r1 x2 y2 r2.
Proof.
  intros d a h ex ey Mx My Hg Hd.
  assert (E1 : (Mx + h * ey, My + h * - ex)
               = Spec.minus_branch x1 y1 r1 x2 y2 r2).
  { unfold_branches.
    subst Mx My ex ey h a d. f_equal; ring. }
  assert (E2 : (Mx - h * ey, My - h * - ex)
               = Spec.plus_branch x1 y1 r1 x2 y2 r2).
  { unfold_branches.
    subst Mx My ex ey h a d. f_equal; ring. }
  split; [ | split; assumption].
  rewrite (circle_intersection_meets _ _ _ _ _ _ Hd Hg), <- E1, <- E2.
  reflexivity.
Qed.

Lemma circle_intersection_order_witness :
  (Rabs (5 - 5) <= Spec.d 0 0 6 0 <= 5 + 5 /\ 0 < Spec.d 0 0 6 0) /\
  circle_intersection 0 0 5 6 0 5 =
    Returned (finite_point (Spec.minus_branch 0 0 5 6 0 5),
              finite_point (Spec.plus_branch 0 0 5 6 0 5)).
Proof.
  destruct guard_example as [Hd Hg].
  split; [split; assumption | ].
  destruct (circle_intersection_order 0 0 5 6 0 5 Hg Hd) as (E & E1 & E2).
  rewrite E, <- E1, <- E2. reflexivity.
Defined.

(* ================================================================= *)
(** ** Coincident centres *)

(** C4: two equal circles on one centre (A = B, dA = dB = 1) pass the guard;
    the function divides by [d = 0], raises nothing and returns two points
    whose coordinates are all NaN, and the script goes on with them. *)
Theorem circle_intersection_coincident_nan :
  circle_intersection 0 0 1 0 0 1 = Returned ((NaN, NaN), (NaN, NaN)) /\
  try_intersection 0 0 1 0 0 1 = Solved (NaN, NaN) (NaN, NaN).
Proof.
  unfold try_intersection.
  rewrite (circle_intersection_same 0 0 1) by lra. split; reflexivity.
Qed.

(* ================================================================= *)
(** ** The origin of the local frame *)

Section Origin.

Variables A_lon A_lat : R.
Variable local_tm : direction -> R -> R -> R * R.

(** C5: for every origin and every transformer, [latlon_to_local] maps the
    origin's own longitude and latitude to (0, 0) exactly: the native
    coordinates of the origin are subtracted from themselves. *)
Theorem latlon_to_local_origin :
  latlon_to_local A_lon A_lat local_tm A_lon A_lat = (0, 0).
Proof.
  unfold latlon_to_local.
  destruct (local_tm FORWARD A_lon A_lat) as [e0 n0].
  f_equal; apply Rminus_diag.
Qed.

End Origin.

(* ================================================================= *)
(** ** Degrees, minutes, seconds *)

(** Truncation toward zero keeps the sign and loses less than one. *)
Lemma int_spec x :
  (0 <= x /\ (0 <= int x)%Z /\ IZR (int x) <= x < IZR (int x) + 1) \/
  (x < 0 /\ (int x <= 0)%Z /\ IZR (int x) - 1 < x <= IZR (int x)).
Proof.
  unfold int. destruct (Rle_dec 0 x) as [H | H].
  - left. split; [exact H | ]. split; [ | apply Zfloor_bound].
    now apply (Zfloor_lub 0).
  - right. assert (Hx : x < 0) by lra. split; [exact Hx | ].
    split; [ | apply Zceil_bound].
    unfold Zceil. assert (0 <= Zfloor (- x))%Z; [ | lia].
    apply (Zfloor_lub 0). lra.
Qed.

Lemma int_nonneg x z : IZR z <= x < IZR z + 1 -> 0 <= x -> int x = z.
Proof.
  intros H Hx. unfold int. destruct (Rle_dec 0 x); [ | lra].
  now apply Zfloor_eq.
Qed.

Lemma int_neg x z : IZR z - 1 < x <= IZR z -> x < 0 -> int x = z.
Proof.
  intros H Hx. unfold int. destruct (Rle_dec 0 x); [lra | ].
  now apply Zceil_eq.
Qed.

(** C6, as stated, fails: for -1.26 degrees the minutes are -15 and the
    seconds -36, both negative. *)
Lemma decimal_to_dms_negative_minutes_seconds :
  decimal_to_dms (-1.26) = ((-1)%Z, (-15)%Z, -36) /\
  ~ (let '(d, m, s) := decimal_to_dms (-1.26) in (0 <= m)%Z /\ 0 <= s).
Proof.
  assert (E : decimal_to_dms (-1.26) = ((-1)%Z, (-15)%Z, -36)).
  { unfold decimal_to_dms.
    rewrite (int_neg (-1.26) (-1)) by lra.
    rewrite (int_neg ((-1.26 - IZR (-1)) * 60) (-15)) by lra.
    f_equal. lra. }
  split; [exact E | ]. rewrite E. intros [H _]. lia.
Qed.

(** C6, amended: the three components of [decimal_to_dms x] all carry the
    sign of [x].  For [x >= 0] the degrees, minutes and seconds are
    non-negative; for [x <= 0] they are all non-positive.  In both cases the
    minutes have magnitude at most 59, the seconds magnitude below 60, and
    the degrees are [x] truncated toward zero. *)
Theorem decimal_to_dms_signs x :
  let '(d, m, s) := decimal_to_dms x in
  d = int x /\
  ((0 <= x /\ (0 <= d)%Z /\ (0 <= m <= 59)%Z /\ 0 <= s < 60) \/
   (x <= 0 /\ (d <= 0)%Z /\ (-59 <= m <= 0)%Z /\ -60 < s <= 0)).
Proof.
  unfold decimal_to_dms. split; [reflexivity | ].
  set (f := (x - IZR (int x)) * 60).
  destruct (int_spec x) as [(Hx & Hd & Hb) | (Hx & Hd & Hb)].
  - left. assert (Hf : 0 <= f < 60) by (unfold f; lra).
    destruct (int_spec f) as [(_ & Hm & Hmb) | (Hneg & _)]; [ | lra].
    assert (int f < 60)%Z by (apply lt_IZR; lra).
    split; [exact Hx | ]. split; [exact Hd | ].
    split; [lia | fold f; lra].
  - right. assert (Hf : -60 < f <= 0) by (unfold f; lra).
    split; [lra | ]. split; [exact Hd | ].
    destruct (int_spec f) as [(Hf0 & Hm & Hmb) | (Hneg & Hm & Hmb)].
    + assert (E : f = 0) by lra.
      assert (Em : int f = 0%Z).
      { apply int_nonneg; [ | lra]. simpl. lra. }
      fold f. rewrite Em. simpl. split; [lia | lra].
    + assert (-60 < int f)%Z by (apply lt_IZR; lra).
      split; [lia | fold f; lra].
Qed.

(** Converting back recovers the decimal value exactly. *)
Lemma dms_roundtrip_exact x :
  let '(d, m, s) := decimal_to_dms x in dms_to_decimal d m s = x.
Proof. unfold decimal_to_dms, dms_to_decimal. field. Qed.

(* ================================================================= *)
(** ** Swapping the two circles *)

Lemma d_sym x1 y1 x2 y2 : Spec.d x2 y2 x1 y1 = Spec.d x1 y1 x2 y2.
Proof. unfold Spec.d. f_equal. ring. Qed.

Lemma h_swap r1 r2 d :
  d <> 0 -> Spec.h r2 (Spec.a r2 r1 d) = Spec.h r1 (Spec.a r1 r2 d).
Proof.
  intros Hd. unfold Spec.h, Spec.a. f_equal. field. exact Hd.
Qed.

Lemma branch_swap x1 y1 r1 x2 y2 r2 :
  Spec.d x1 y1 x2 y2 <> 0 ->
  Spec.minus_branch x2 y2 r2 x1 y1 r1 = Spec.plus_branch x1 y1 r1 x2 y2 r2 /\
  Spec.plus_branch x2 y2 r2 x1 y1 r1 = Spec.minus_branch x1 y1 r1 x2 y2 r2.
Proof.
  intros Hd.
  unfold_branches.
  rewrite (d_sym x1 y1 x2 y2), (h_swap r1 r2 _ Hd).
  generalize (Spec.h r1 (Spec.a r1 r2 (Spec.d x1 y1 x2 y2))); intros h.
  unfold Spec.a.
  split; f_equal; field; exact Hd.
Qed.

(** X16: in exact arithmetic, whenever [circle_intersection c1 c2] returns
    the points [(p, q)], [circle_intersection c2 c1] returns the same two
    points in the other order, [(q, p)]. *)
Theorem circle_intersection_swap x1 y1 r1 x2 y2 r2 p q :
  circle_intersection x1 y1 r1 x2 y2 r2 = Returned (p, q) ->
  circle_intersection x2 y2 r2 x1 y1 r1 = Returned (q, p).
Proof.
  intros H.
  assert (Hg : Rabs (r1 - r2) <= Spec.d x1 y1 x2 y2 <= r1 + r2).
  { apply guard_false. rewrite <- ci_d_spec. revert H.
    unfold circle_intersection.
    destruct (disjoint_or_nested (ci_d x1 y1 x2 y2) r1 r2);
      [discriminate | reflexivity]. }
  pose proof (ci_d_nonneg x1 y1 x2 y2) as Hd. rewrite ci_d_spec in Hd.
  destruct Hd as [Hd | Hd].
  - (* centres apart *)
    rewrite (circle_intersection_meets _ _ _ _ _ _ Hd Hg) in H.
    injection H as <- <-.
    assert (Hg' : Rabs (r2 - r1) <= Spec.d x2 y2 x1 y1 <= r2 + r1).
    { rewrite d_sym, Rabs_minus_sym, (Rplus_comm r2 r1). exact Hg. }
    assert (Hd' : 0 < Spec.d x2 y2 x1 y1) by (rewrite d_sym; exact Hd).
    rewrite (circle_intersection_meets _ _ _ _ _ _ Hd' Hg').
    destruct (branch_swap x1 y1 r1 x2 y2 r2) as [-> ->]; [lra | reflexivity].
  - (* coincident centres: both calls are the same call *)
    rewrite <- Hd in Hg.
    destruct (guard_radii _ _ _ Hg) as (Hr1 & _).
    assert (Er : r2 = r1).
    { destruct Hg as [Hg _]. unfold Rabs in Hg.
      destruct (Rcase_abs (r1 - r2)); lra. }
    symmetry in Hd. rewrite <- ci_d_spec in Hd.
    destruct (ci_d_zero _ _ _ _ Hd) as [-> ->]. subst r2.
    rewrite (circle_intersection_same _ _ _ Hr1) in H |- *.
    injection H as <- <-. reflexivity.
Qed.

Lemma circle_intersection_swap_witness :
  circle_intersection 0 0 5 6 0 5
    = Returned ((Fin 3, Fin (-4)), (Fin 3, Fin 4)) /\
  circle_intersection 6 0 5 0 0 5
    = Returned ((Fin 3, Fin 4), (Fin 3, Fin (-4))).
Proof.
  split; [exact circle_intersection_example | ].
  exact (circle_intersection_swap 0 0 5 6 0 5 _ _ circle_intersection_example).
Defined.

(* ================================================================= *)
(** ** The returned points lie on both circles *)

Lemma unit_axis x1 y1 x2 y2 :
  0 < Spec.d x1 y1 x2 y2 ->
  Spec.ex x1 y1 x2 y2 * Spec.ex x1 y1 x2 y2
  + Spec.ey x1 y1 x2 y2 * Spec.ey x1 y1 x2 y2 = 1.
Proof.
  intros Hd. unfold Spec.ex, Spec.ey.
  pose proof (ci_d_sqr x1 y1 x2 y2) as E. rewrite ci_d_spec in E.
  set (d := Spec.d x1 y1 x2 y2) in *.
  replace ((x2 - x1) / d * ((x2 - x1) / d) + (y2 - y1) / d * ((y2 - y1) / d))
    with (((x2 - x1) ^ 2 + (y2 - y1) ^ 2) / d ^ 2) by (field; lra).
  rewrite <- E. field. lra.
Qed.

Lemma on_first_circle a h u v r1 :
  u * u + v * v = 1 -> h * h = r1 ^ 2 - a ^ 2 ->
  (a * u + h * v) ^ 2 + (a * v - h * u) ^ 2 = r1 ^ 2.
Proof.
  intros Huv Hh.
  replace ((a * u + h * v) ^ 2 + (a * v - h * u) ^ 2)
    with ((a ^ 2 + h * h) * (u * u + v * v)) by ring.
  rewrite Huv, Hh. ring.
Qed.

Lemma on_second_circle a h u v d r1 r2 :
  u * u + v * v = 1 -> h * h = r1 ^ 2 - a ^ 2 ->
  2 * d * a = r1 ^ 2 - r2 ^ 2 + d ^ 2 ->
  ((a - d) * u + h * v) ^ 2 + ((a - d) * v - h * u) ^ 2 = r2 ^ 2.
Proof.
  intros Huv Hh Ha.
  replace (((a - d) * u + h * v) ^ 2 + ((a - d) * v - h * u) ^ 2)
    with ((a ^ 2 - 2 * d * a + d ^ 2 + h * h) * (u * u + v * v)) by ring.
  rewrite Huv, Hh, Ha. ring.
Qed.

Lemma dist_to_fin X Y x y r :
  0 <= r -> (X - x) ^ 2 + (Y - y) ^ 2 = r ^ 2 ->
  dist_to (Fin X, Fin Y) x y = Fin r.
Proof.
  intros Hr E. unfold dist_to, Np.sq, Np.sub, Np.add, Np.neg, Np.mul.
  cbn [fst snd].
  replace ((X + - x) * (X + - x) + (Y + - y) * (Y + - y)) with (r * r)
    by (rewrite <- (Rmult_1_r r) at 2; change (r * (r * 1)) with (r ^ 2);
        rewrite <- E; ring).
  rewrite sqrt_fin by nra. now rewrite sqrt_square.
Qed.

Lemma branches_on_circles x1 y1 r1 x2 y2 r2 :
  0 < Spec.d x1 y1 x2 y2 ->
  Rabs (r1 - r2) <= Spec.d x1 y1 x2 y2 <= r1 + r2 ->
  forall p, p = Spec.minus_branch x1 y1 r1 x2 y2 r2
            \/ p = Spec.plus_branch x1 y1 r1 x2 y2 r2 ->
  dist_to (finite_point p) x1 y1 = Fin r1 /\
  dist_to (finite_point p) x2 y2 = Fin r2.
Proof.
  intros d_pos meets.
  set (d := Spec.d x1 y1 x2 y2) in *.
  destruct (guard_radii _ _ _ meets) as (Hr1 & Hr2 & _).
  pose proof (unit_axis x1 y1 x2 y2 d_pos) as Huv.
  pose proof (radicand_nonneg _ _ _ d_pos meets) as Hrad.
  assert (Hh : Spec.h r1 (Spec.a r1 r2 d) * Spec.h r1 (Spec.a r1 r2 d)
               = r1 ^ 2 - Spec.a r1 r2 d ^ 2)
    by (unfold Spec.h; now apply sqrt_sqrt).
  assert (Ha : 2 * d * Spec.a r1 r2 d = r1 ^ 2 - r2 ^ 2 + d ^ 2)
    by (unfold Spec.a; field; lra).
  assert (Hx2 : x2 = x1 + d * Spec.ex x1 y1 x2 y2)
    by (unfold Spec.ex; fold d; field; lra).
  assert (Hy2 : y2 = y1 + d * Spec.ey x1 y1 x2 y2)
    by (unfold Spec.ey; fold d; field; lra).
  unfold Spec.minus_branch, Spec.plus_branch, Spec.Mx, Spec.My,
    Spec.px, Spec.py. fold d.
  set (u := Spec.ex x1 y1 x2 y2) in *.
  set (v := Spec.ey x1 y1 x2 y2) in *.
  set (h := Spec.h r1 (Spec.a r1 r2 d)) in *.
  set (a := Spec.a r1 r2 d) in *.
  clearbody u v h a.
  intros p [-> | ->]; unfold finite_point; cbn [fst snd].
  - split; apply dist_to_fin; try assumption.
    + rewrite <- (on_first_circle a h u v r1 Huv Hh). ring.
    + rewrite <- (on_second_circle a h u v d r1 r2 Huv Hh Ha).
      rewrite Hx2 at 1. rewrite Hy2 at 1. ring.
  - split; apply dist_to_fin; try assumption.
    + rewrite <- (on_first_circle a h u v r1 Huv Hh). ring.
    + rewrite <- (on_second_circle a h u v d r1 r2 Huv Hh Ha).
      rewrite Hx2 at 1. rewrite Hy2 at 1. ring.
Qed.

(** C10: for non-negative radii and centres a distance [d > 0] apart with
    [|r1 - r2| <= d <= r1 + r2], each of the two points
    [circle_intersection] returns is at distance exactly [r1] from the first
    centre and exactly [r2] from the second. *)
Theorem circle_intersection_on_both_circles x1 y1 r1 x2 y2 r2 :
  let d := Spec.d x1 y1 x2 y2 in
  0 <= r1 -> 0 <= r2 -> 0 < d -> Rabs (r1 - r2) <= d <= r1 + r2 ->
  exists p q,
    circle_intersection x1 y1 r1 x2 y2 r2 = Returned (p, q) /\
    dist_to p x1 y1 = Fin r1 /\ dist_to p x2 y2 = Fin r2 /\
    dist_to q x1 y1 = Fin r1 /\ dist_to q x2 y2 = Fin r2.
Proof.
  intros d _ _ Hd Hg.
  exists (finite_point (Spec.minus_branch x1 y1 r1 x2 y2 r2)),
         (finite_point (Spec.plus_branch x1 y1 r1 x2 y2 r2)).
  split; [exact (circle_intersection_meets _ _ _ _ _ _ Hd Hg) | ].
  destruct (branches_on_circles x1 y1 r1 x2 y2 r2 Hd Hg _ (or_introl eq_refl))
    as [H1 H2].
  destruct (branches_on_circles x1 y1 r1 x2 y2 r2 Hd Hg _ (or_intror eq_refl))
    as [H3 H4].
  repeat split; assumption.
Qed.

Lemma circle_intersection_on_both_circles_witness :
  (0 <= 5 /\ 0 < Spec.d 0 0 6 0 /\ Rabs (5 - 5) <= Spec.d 0 0 6 0 <= 5 + 5) /\
  exists p q,
    circle_intersection 0 0 5 6 0 5 = Returned (p, q) /\
    dist_to p 0 0 = Fin 5 /\ dist_to p 6 0 = Fin 5 /\
    dist_to q 0 0 = Fin 5 /\ dist_to q 6 0 = Fin 5.
Proof.
  destruct guard_example as [Hd Hg].
  assert (H5 : 0 <= 5) by lra.
  split; [split; [exact H5 | split; assumption] | ].
  exact (circle_intersection_on_both_circles 0 0 5 6 0 5 H5 H5 Hd Hg).
Defined.

(* ================================================================= *)
(** * Further properties of the circle intersection *)


(** ** Geometry of the two returned points *)

(** The returned coordinates in terms of the unit axis vector [(u, v)]. *)
Lemma meets_coordinates x1 y1 r1 x2 y2 r2 :
  0 < Spec.d x1 y1 x2 y2 ->
  Rabs (r1 - r2) <= Spec.d x1 y1 x2 y2 <= r1 + r2 ->
  exists u v : R,
    let d := Spec.d x1 y1 x2 y2 in
    let a := Spec.a r1 r2 d in
    let h := Spec.h r1 a in
    u * u + v * v = 1 /\ x2 = x1 + d * u /\ y2 = y1 + d * v /\
    0 <= h /\ h * h = r1 ^ 2 - a ^ 2 /\
    circle_intersection x1 y1 r1 x2 y2 r2 =
      Returned ((Fin (x1 + a * u + h * v), Fin (y1 + a * v - h * u)),
                (Fin (x1 + a * u - h * v), Fin (y1 + a * v + h * u))).
Proof.
  intros Hd Hg.
  exists (Spec.ex x1 y1 x2 y2), (Spec.ey x1 y1 x2 y2). cbv zeta.
  pose proof (radicand_nonneg _ _ _ Hd Hg) as Hrad.
  split; [exact (unit_axis x1 y1 x2 y2 Hd) | ].
  split; [unfold Spec.ex; field; lra | ].
  split; [unfold Spec.ey; field; lra | ].
  split; [apply sqrt_pos | ].
  split; [unfold Spec.h; now apply sqrt_sqrt | ].
  rewrite (circle_intersection_meets _ _ _ _ _ _ Hd Hg).
  unfold finite_point, Spec.minus_branch, Spec.plus_branch, Spec.Mx, Spec.My,
    Spec.px, Spec.py. cbn [fst snd].
  apply f_equal. apply f_equal2; apply f_equal2; apply f_equal; ring.
Qed.

(** X5: when the circles meet with centres apart, the two returned points
    are mirror images in the line of centres: their midpoint is
    [center1 + a (center2 - center1) / d], the segment joining them is
    perpendicular to [center2 - center1], and its length is [2 h]. *)
Theorem circle_intersection_chord x1 y1 r1 x2 y2 r2 :
  let d := Spec.d x1 y1 x2 y2 in
  let a := Spec.a r1 r2 d in
  let h := Spec.h r1 a in
  0 < d -> Rabs (r1 - r2) <= d <= r1 + r2 ->
  exists px py qx qy : R,
    circle_intersection x1 y1 r1 x2 y2 r2
      = Returned ((Fin px, Fin py), (Fin qx, Fin qy)) /\
    (px + qx) / 2 = x1 + a * (x2 - x1) / d /\
    (py + qy) / 2 = y1 + a * (y2 - y1) / d /\
    (qx - px) * (x2 - x1) + (qy - py) * (y2 - y1) = 0 /\
    Np.hypot (qx - px) (qy - py) = 2 * h.
Proof.
  intros d a h Hd Hg.
  destruct (meets_coordinates _ _ _ _ _ _ Hd Hg)
    as (u & v & Huv & Hx2 & Hy2 & Hh0 & _ & E).
  fold d in Hx2, Hy2, Hh0, E. fold a in Hh0, E. fold h in Hh0, E.
  do 4 eexists. split; [exact E | ].
  assert (Hd0 : d <> 0) by lra.
  split; [rewrite Hx2 at 1; field; exact Hd0 | ].
  split; [rewrite Hy2 at 1; field; exact Hd0 | ].
  split; [rewrite Hx2 at 1; rewrite Hy2 at 1; ring | ].
  unfold Np.hypot.
  replace ((x1 + a * u - h * v - (x1 + a * u + h * v))
           * (x1 + a * u - h * v - (x1 + a * u + h * v))
           + (y1 + a * v + h * u - (y1 + a * v - h * u))
             * (y1 + a * v + h * u - (y1 + a * v - h * u)))
    with (2 * h * (2 * h) * (u * u + v * v)) by ring.
  rewrite Huv, Rmult_1_r. apply sqrt_square. lra.
Qed.

Lemma circle_intersection_chord_witness :
  (0 < Spec.d 0 0 6 0 /\ Rabs (5 - 5) <= Spec.d 0 0 6 0 <= 5 + 5) /\
  exists px py qx qy : R,
    circle_intersection 0 0 5 6 0 5
      = Returned ((Fin px, Fin py), (Fin qx, Fin qy)) /\
    Np.hypot (qx - px) (qy - py) = 2 * Spec.h 5 (Spec.a 5 5 (Spec.d 0 0 6 0)).
Proof.
  split; [exact guard_example | ].
  destruct (circle_intersection_chord 0 0 5 6 0 5
              (proj1 guard_example) (proj2 guard_example))
    as (px & py & qx & qy & E & _ & _ & _ & H).
  exists px, py, qx, qy. split; [exact E | exact H].
Defined.

(** X6: which point comes first.  Seen from the first centre looking at the
    second, the first returned point is on the right and the second on the
    left: the cross product of [center2 - center1] with [point - center1]
    is [- d h <= 0] for the first point and [d h >= 0] for the second. *)
Theorem circle_intersection_orientation x1 y1 r1 x2 y2 r2 :
  let d := Spec.d x1 y1 x2 y2 in
  let h := Spec.h r1 (Spec.a r1 r2 d) in
  0 < d -> Rabs (r1 - r2) <= d <= r1 + r2 ->
  exists px py qx qy : R,
    circle_intersection x1 y1 r1 x2 y2 r2
      = Returned ((Fin px, Fin py), (Fin qx, Fin qy)) /\
    (x2 - x1) * (py - y1) - (y2 - y1) * (px - x1) = - (d * h) /\
    (x2 - x1) * (qy - y1) - (y2 - y1) * (qx - x1) = d * h /\
    0 <= d * h.
Proof.
  intros d h Hd Hg.
  destruct (meets_coordinates _ _ _ _ _ _ Hd Hg)
    as (u & v & Huv & Hx2 & Hy2 & Hh0 & _ & E).
  fold d in Hx2, Hy2, Hh0, E. fold h in Hh0, E.
  set (a := Spec.a r1 r2 d) in *.
  do 4 eexists. split; [exact E | ].
  assert (Ex : x2 - x1 = d * u) by lra.
  assert (Ey : y2 - y1 = d * v) by lra.
  rewrite Ex, Ey.
  split; [ | split].
  - replace (d * u * (y1 + a * v - h * u - y1)
             - d * v * (x1 + a * u + h * v - x1))
      with (- (d * h * (u * u + v * v))) by ring.
    rewrite Huv. ring.
  - replace (d * u * (y1 + a * v + h * u - y1)
             - d * v * (x1 + a * u - h * v - x1))
      with (d * h * (u * u + v * v)) by ring.
    rewrite Huv. ring.
  - apply Rmult_le_pos; lra.
Qed.

Lemma circle_intersection_orientation_witness :
  (0 < Spec.d 0 0 6 0 /\ Rabs (5 - 5) <= Spec.d 0 0 6 0 <= 5 + 5) /\
  exists px py qx qy : R,
    circle_intersection 0 0 5 6 0 5
      = Returned ((Fin px, Fin py), (Fin qx, Fin qy)) /\
    (6 - 0) * (py - 0) - (0 - 0) * (px - 0)
      = - (Spec.d 0 0 6 0 * Spec.h 5 (Spec.a 5 5 (Spec.d 0 0 6 0))).
Proof.
  split; [exact guard_example | ].
  destruct (circle_intersection_orientation 0 0 5 6 0 5
              (proj1 guard_example) (proj2 guard_example))
    as (px & py & qx & qy & E & H & _).
  exists px, py, qx, qy. split; [exact E | exact H].
Defined.

(** ** Moving both circles *)

Lemma add_translate (x t : R) (T D : npfloat) :
  (Fin (x + t) + T + D)%np = (Fin x + T + D + Fin t)%np.
Proof.
  destruct T as [c | s | ], D as [e | s' | ]; simpl; try reflexivity.
  - f_equal. ring.
  - now destruct (Bool.eqb s s').
Qed.

Lemma sub_translate (x t : R) (T D : npfloat) :
  (Fin (x + t) + T - D)%np = (Fin x + T - D + Fin t)%np.
Proof.
  unfold Np.sub. apply add_translate.
Qed.

(** X7: moving both centres by the same vector moves both returned points
    by that vector and changes nothing else: the same inputs raise, and the
    NaN results of coincident centres stay NaN. *)
Theorem circle_intersection_translate tx ty x1 y1 r1 x2 y2 r2 :
  circle_intersection (x1 + tx) (y1 + ty) r1 (x2 + tx) (y2 + ty) r2 =
    match circle_intersection x1 y1 r1 x2 y2 r2 with
    | Returned (p, q) => Returned (translate tx ty p, translate tx ty q)
    | Raised e => Raised e
    end.
Proof.
  unfold circle_intersection, ci_d.
  replace (x2 + tx - (x1 + tx)) with (x2 - x1) by ring.
  replace (y2 + ty - (y1 + ty)) with (y2 - y1) by ring.
  replace (x1 + tx - (x2 + tx)) with (x1 - x2) by ring.
  destruct (disjoint_or_nested (Np.hypot (x2 - x1) (y2 - y1)) r1 r2);
    [reflexivity | ].
  cbv zeta. unfold translate. cbn [fst snd].
  now rewrite !add_translate, !sub_translate.
Qed.

(* ================================================================= *)
(** * Further properties of the angle conversion *)

Lemma int_IZR z : int (IZR z) = z.
Proof.
  unfold int. destruct (Rle_dec 0 (IZR z)).
  - apply ZfloorZ.
  - unfold Zceil. rewrite ZfloorNZ. lia.
Qed.

Lemma int_opp x : int (- x) = (- int x)%Z.
Proof.
  destruct (Rtotal_order x 0) as [H | [-> | H]].
  - unfold int. destruct (Rle_dec 0 (- x)); [ | lra].
    destruct (Rle_dec 0 x); [lra | ]. apply ZfloorN.
  - rewrite Ropp_0. change 0 with (IZR 0). now rewrite int_IZR.
  - unfold int. destruct (Rle_dec 0 (- x)); [lra | ].
    destruct (Rle_dec 0 x); [ | lra]. apply ZceilN.
Qed.

(** X8: negating the angle negates each of the three components. *)
Theorem decimal_to_dms_opp x :
  let '(d, m, s) := decimal_to_dms x in
  decimal_to_dms (- x) = ((- d)%Z, (- m)%Z, - s).
Proof.
  unfold decimal_to_dms. rewrite int_opp, opp_IZR.
  replace ((- x - - IZR (int x)) * 60) with (- ((x - IZR (int x)) * 60)) by ring.
  rewrite int_opp, opp_IZR. f_equal. ring.
Qed.

(** X9: a whole number of degrees has zero minutes and zero seconds. *)
Theorem decimal_to_dms_whole z :
  decimal_to_dms (IZR z) = (z, 0%Z, 0).
Proof.
  unfold decimal_to_dms. rewrite int_IZR.
  replace ((IZR z - IZR z) * 60) with (IZR 0) by (simpl; ring).
  rewrite int_IZR. f_equal. simpl. ring.
Qed.

(* ================================================================= *)
(** * Further properties of the local frame *)

Lemma dist_to_hypot X Y x y :
  dist_to (Fin X, Fin Y) x y = Fin (Np.hypot (X - x) (Y - y)).
Proof.
  unfold dist_to, Np.hypot, Np.sq, Np.sub, Np.add, Np.neg, Np.mul.
  cbn [fst snd]. rewrite sqrt_fin; [reflexivity | ].
  apply Rplus_le_le_0_compat; apply Rle_0_sqr.
Qed.

Section PlaneRoundTrip.

Variables A_lon A_lat : R.
Variable local_tm : direction -> R -> R -> R * R.

(** pyproj's forward projection undoes its inverse projection. *)
Hypothesis local_tm_forward :
  forall u v,
    let '(lon, lat) := local_tm INVERSE u v in
    local_tm FORWARD lon lat = (u, v).

Lemma plane_roundtrip e n :
  let '(lat, lon) := local_to_latlon A_lon A_lat local_tm e n in
  latlon_to_local A_lon A_lat local_tm lon lat = (e, n).
Proof.
  unfold local_to_latlon, latlon_to_local.
  destruct (local_tm FORWARD A_lon A_lat) as [e0 n0].
  pose proof (local_tm_forward (e + e0) (n + n0)) as H.
  destruct (local_tm INVERSE (e + e0) (n + n0)) as [lon lat].
  rewrite H. f_equal; ring.
Qed.

(** X12: [local_to_latlon] returns latitude first, [latlon_to_local] takes
    longitude first.  With the two results put back in that order, going
    from the plane to longitude/latitude and back gives the plane point
    again, whatever the origin. *)
Theorem local_to_latlon_then_latlon_to_local e n :
  let '(lat, lon) := local_to_latlon A_lon A_lat local_tm e n in
  latlon_to_local A_lon A_lat local_tm lon lat = (e, n).
Proof. exact (plane_roundtrip e n). Qed.

(** X13: the plane part of the trilateration.  For a second point [B] whose
    local coordinates [(xB, yB)] are at a distance [d > 0] from the origin
    with [|dA - dB| <= d <= dA + dB], the script gets two finite local
    solutions, and each of them, converted to longitude/latitude by
    [local_to_latlon] and projected again by [latlon_to_local], is at plane
    distance [dA] from [(0, 0)] and [dB] from [(xB, yB)]. *)
Theorem trilateration_in_the_plane B_lon B_lat dA dB :
  let '(xB, yB) := latlon_to_local A_lon A_lat local_tm B_lon B_lat in
  let d := Spec.d 0 0 xB yB in
  0 < d -> Rabs (dA - dB) <= d <= dA + dB ->
  exists e1 n1 e2 n2 : R,
    try_intersection 0 0 dA xB yB dB
      = Solved (Fin e1, Fin n1) (Fin e2, Fin n2) /\
    forall e n, (e, n) = (e1, n1) \/ (e, n) = (e2, n2) ->
      let '(lat, lon) := local_to_latlon A_lon A_lat local_tm e n in
      let '(e', n') := latlon_to_local A_lon A_lat local_tm lon lat in
      Np.hypot (e' - 0) (n' - 0) = dA /\ Np.hypot (e' - xB) (n' - yB) = dB.
Proof.
  destruct (latlon_to_local A_lon A_lat local_tm B_lon B_lat) as [xB yB].
  intros d Hd Hg.
  pose proof (branches_on_circles 0 0 dA xB yB dB Hd Hg) as Hon.
  exists (fst (Spec.minus_branch 0 0 dA xB yB dB)),
         (snd (Spec.minus_branch 0 0 dA xB yB dB)),
         (fst (Spec.plus_branch 0 0 dA xB yB dB)),
         (snd (Spec.plus_branch 0 0 dA xB yB dB)).
  split.
  - unfold try_intersection.
    now rewrite (circle_intersection_meets _ _ _ _ _ _ Hd Hg).
  - intros e n Hen.
    pose proof (plane_roundtrip e n) as Hrt.
    destruct (local_to_latlon A_lon A_lat local_tm e n) as [lat lon].
    rewrite Hrt.
    assert (Hp : dist_to (Fin e, Fin n) 0 0 = Fin dA /\
                 dist_to (Fin e, Fin n) xB yB = Fin dB).
    { destruct Hen as [Hen | Hen]; injection Hen as -> ->.
      - apply (Hon (Spec.minus_branch 0 0 dA xB yB dB)). now left.
      - apply (Hon (Spec.plus_branch 0 0 dA xB yB dB)). now right. }
    rewrite !dist_to_hypot in Hp. destruct Hp as [H1 H2].
    injection H1 as H1. injection H2 as H2. split; assumption.
Qed.

End PlaneRoundTrip.

(** X14: a false easting and northing in the projection cancel.  With any
    constants added to the transformer's native plane coordinates,
    [latlon_to_local] and [local_to_latlon] return what they return
    without them. *)
Theorem false_origin_cancels fe fn A_lon A_lat
  (local_tm : direction -> R -> R -> R * R) u v :
  latlon_to_local A_lon A_lat (with_false_origin fe fn local_tm) u v
    = latlon_to_local A_lon A_lat local_tm u v /\
  local_to_latlon A_lon A_lat (with_false_origin fe fn local_tm) u v
    = local_to_latlon A_lon A_lat local_tm u v.
Proof.
  unfold latlon_to_local, local_to_latlon, with_false_origin.
  destruct (local_tm FORWARD u v) as [e n].
  destruct (local_tm FORWARD A_lon A_lat) as [e0 n0].
  split.
  - f_equal; ring.
  - replace (u + (e0 + fe) - fe) with (u + e0) by ring.
    replace (v + (n0 + fn) - fn) with (v + n0) by ring.
    reflexivity.
Qed.

(** A toy transformer whose inverse undoes its forward map: a shift by a
    false easting of 500000. *)
Lemma shift_forward_inverse :
  let tm := fun (dir : direction) (u v : R) =>
              match dir with
              | FORWARD => (u + 500000, v)
              | INVERSE => (u - 500000, v)
              end in
  forall u v,
    let '(lon, lat) := tm INVERSE u v in tm FORWARD lon lat = (u, v).
Proof. intros tm u v. cbn. f_equal. ring. Qed.

Lemma local_to_latlon_then_latlon_to_local_witness :
  let tm := fun (dir : direction) (u v : R) =>
              match dir with
              | FORWARD => (u + 500000, v)
              | INVERSE => (u - 500000, v)
              end in
  let '(lat, lon) := local_to_latlon 105 39 tm 3 (-4) in
  latlon_to_local 105 39 tm lon lat = (3, -4).
Proof.
  intros tm.
  exact (local_to_latlon_then_latlon_to_local 105 39 tm
           shift_forward_inverse 3 (-4)).
Defined.

Lemma trilateration_in_the_plane_witness :
  let tm := fun (dir : direction) (u v : R) =>
              match dir with
              | FORWARD => (u + 500000, v)
              | INVERSE => (u - 500000, v)
              end in
  let '(xB, yB) := latlon_to_local 105 39 tm 111 39 in
  (0 < Spec.d 0 0 xB yB /\ Rabs (5 - 5) <= Spec.d 0 0 xB yB <= 5 + 5) /\
  exists e1 n1 e2 n2 : R,
    try_intersection 0 0 5 xB yB 5 = Solved (Fin e1, Fin n1) (Fin e2, Fin n2).
Proof.
  intros tm.
  pose proof (trilateration_in_the_plane 105 39 tm shift_forward_inverse
                111 39 5 5) as H.
  destruct (latlon_to_local 105 39 tm 111 39) as [xB yB] eqn:E.
  assert (Hx : xB = 6 /\ yB = 0).
  { unfold latlon_to_local, tm in E. injection E as <- <-. split; ring. }
  destruct Hx as [-> ->].
  split; [exact guard_example | ].
  destruct (H (proj1 guard_example) (proj2 guard_example))
    as (e1 & n1 & e2 & n2 & Hs & _).
  exists e1, n1, e2, n2. exact Hs.
Defined.


(* ================================================================= *)
(** * The circle intersection evaluated in binary64 *)

Module B64Facts.

Import PrimFloat.
Import B64.
Local Open Scope float_scope.
#[local] Set Warnings "-inexact-float".

Lemma axis_hypot_on_axis : hypot_on_axis axis_hypot.
Proof. intros x. reflexivity. Qed.

(** C2: two inputs with non-negative radii for which neither [d > r1 + r2]
    nor [d < |r1 - r2|] holds and the function does not return two
    solutions.  For the equal circles of radius 1 on the centre (0,0) it
    returns four NaN.  For the circles of radius 1e200 centred at (0,0) and
    (1,0) it raises [OverflowError], which the script's
    [except ValueError] does not catch. *)
Theorem circle_intersection_no_two_solutions hypot :
  hypot_on_axis hypot ->
  (disjoint_or_nested (hypot (0 - 0) (0 - 0)) 1 1 = false /\
   circle_intersection hypot 0 0 1 0 0 1 = Returned ((nan, nan), (nan, nan)))
  /\
  (disjoint_or_nested (hypot (1 - 0) (0 - 0)) 1e200 1e200 = false /\
   circle_intersection hypot 0 0 1e200 1 0 1e200 = Raised OverflowError /\
   try_intersection hypot 0 0 1e200 1 0 1e200 = Uncaught OverflowError).
Proof.
  intros H.
  assert (E0 : hypot (0 - 0) (0 - 0) = 0) by exact (H 0).
  assert (E1 : hypot (1 - 0) (0 - 0) = 1) by exact (H 1).
  unfold try_intersection, circle_intersection. rewrite E0, E1.
  repeat split; reflexivity.
Qed.

Lemma circle_intersection_no_two_solutions_witness :
  circle_intersection axis_hypot 0 0 1 0 0 1
    = Returned ((nan, nan), (nan, nan)) /\
  circle_intersection axis_hypot 0 0 1e200 1 0 1e200 = Raised OverflowError.
Proof.
  destruct (circle_intersection_no_two_solutions axis_hypot
              axis_hypot_on_axis) as [[_ H0] [_ [H1 _]]].
  split; [exact H0 | exact H1].
Defined.

(** C3: the externally tangent circles of radius 0.1 centred at (0,0) and
    (0.2,0) pass the guard with [d = 0.2 > 0]; the code gets
    [a = 0.10000000000000002], [r1 ** 2 - a ** 2 = -1.73e-18], takes the
    square root without a clamp, so [h] is NaN, and returns four NaN. *)
Theorem tangent_half_chord_is_nan hypot :
  hypot_on_axis hypot ->
  let d := hypot (0.2 - 0) (0 - 0) in
  d = 0.2 /\
  disjoint_or_nested d 0.1 0.1 = false /\
  ci_a 0.1 0.1 d = Returned 0.10000000000000002 /\
  0.1 * 0.1 - 0.10000000000000002 * 0.10000000000000002
    = -1.7347234759768071e-18 /\
  ci_h 0.1 0.10000000000000002 = Returned nan /\
  circle_intersection hypot 0 0 0.1 0.2 0 0.1
    = Returned ((nan, nan), (nan, nan)).
Proof.
  intros H d.
  assert (E : d = 0.2) by exact (H 0.2).
  unfold circle_intersection. fold d. rewrite E.
  repeat split; reflexivity.
Qed.

Lemma tangent_half_chord_is_nan_witness :
  ci_h 0.1 0.10000000000000002 = Returned nan /\
  circle_intersection axis_hypot 0 0 0.1 0.2 0 0.1
    = Returned ((nan, nan), (nan, nan)).
Proof.
  destruct (tangent_half_chord_is_nan axis_hypot axis_hypot_on_axis)
    as (_ & _ & _ & _ & Hh & Hc).
  split; [exact Hh | exact Hc].
Defined.

(** C8: for the circles c1 = ((0,0), 27.03) and c2 = ((45.63,0), 18.6),
    which pass the guard in both orders, [circle_intersection c1 c2]
    returns the point (27.03, 0) twice, and [circle_intersection c2 c1]
    returns four NaN: the two calls do not give the same points. *)
Theorem circle_intersection_swap_differs hypot :
  hypot_on_axis hypot ->
  circle_intersection hypot 0 0 27.03 45.63 0 18.6
    = Returned ((27.03, 0), (27.03, 0)) /\
  circle_intersection hypot 45.63 0 18.6 0 0 27.03
    = Returned ((nan, nan), (nan, nan)).
Proof.
  intros H.
  assert (E1 : hypot (45.63 - 0) (0 - 0) = 45.63) by exact (H 45.63).
  assert (E2 : hypot (0 - 45.63) (0 - 0) = 45.63) by exact (H (- 45.63)).
  unfold circle_intersection. rewrite E1, E2.
  split; reflexivity.
Qed.

Lemma circle_intersection_swap_differs_witness :
  circle_intersection axis_hypot 0 0 27.03 45.63 0 18.6
    = Returned ((27.03, 0), (27.03, 0)) /\
  circle_intersection axis_hypot 45.63 0 18.6 0 0 27.03
    = Returned ((nan, nan), (nan, nan)).
Proof.
  exact (circle_intersection_swap_differs axis_hypot axis_hypot_on_axis).
Defined.

End B64Facts.
